(** * A proof-of-work ledger (src/index.ts), embedded and verified

    The development follows the source file top-down:

    - [Bytes], [MD5], [SHA256]: the two digests the program asks of Node's
      [crypto] module, written out so that the program can be evaluated;
    - [JS]: [toString] and [JSON.stringify] on the values the program
      serialises;
    - [Transaction], [Block], [Chain], [Wallet]: the classes of the source,
      with the chain as explicit state and the mining loop driven by fuel;
    - the theorems about them.

    Numbers are modelled as [Z]: every number the program handles is an
    integer (amounts of the demo, [Date.now()], the rounded random nonce, the
    mining counter), and on integers below 2^53 JavaScript's doubles compute
    exactly what [Z] computes.  Strings are modelled by their UTF-8 bytes,
    which is what [hash.update] feeds to the digest. *)

From Stdlib Require Import ZArith List String Ascii Bool Lia.
From Stdlib Require Import DecimalString DecimalZ.
From stdpp Require Import base tactics option list.

Local Open Scope Z_scope.

(** ** Bytes, words and hexadecimal output *)

Module Bytes.

Definition byte_of_ascii (c : ascii) : Z := Z.of_N (N_of_ascii c).

(** The bytes [hash.update(str)] hashes. *)
Fixpoint of_string (s : string) : list Z :=
  match s with
  | EmptyString => []
  | String c s' => byte_of_ascii c :: of_string s'
  end.

Definition hex_digit (d : Z) : ascii :=
  match d with
  | 0 => "0" | 1 => "1" | 2 => "2" | 3 => "3" | 4 => "4" | 5 => "5"
  | 6 => "6" | 7 => "7" | 8 => "8" | 9 => "9" | 10 => "a" | 11 => "b"
  | 12 => "c" | 13 => "d" | 14 => "e" | _ => "f"
  end%char.

(** Two lowercase hexadecimal digits, as [digest('hex')] prints a byte. *)
Definition hex_byte (b : Z) (rest : string) : string :=
  String (hex_digit (Z.land (Z.shiftr b 4) 15))
    (String (hex_digit (Z.land b 15)) rest).

Fixpoint hex (bs : list Z) : string :=
  match bs with
  | [] => EmptyString
  | b :: bs' => hex_byte b (hex bs')
  end.

Definition wrap32 (x : Z) : Z := x mod 2 ^ 32.
Definition add32 (x y : Z) : Z := wrap32 (x + y).
Definition not32 (x : Z) : Z := Z.lxor x (2 ^ 32 - 1).
Definition rotl32 (x n : Z) : Z :=
  Z.lor (wrap32 (Z.shiftl x n)) (Z.shiftr x (32 - n)).
Definition rotr32 (x n : Z) : Z := rotl32 x (32 - n).

Definition byte_at (x k : Z) : Z := Z.land (Z.shiftr x (8 * k)) 255.

(** A 32-bit word from four bytes, least significant byte first. *)
Definition word_le (bs : list Z) : Z :=
  fold_right (fun b acc => b + 256 * acc) 0 (firstn 4 bs).
(** A 32-bit word from four bytes, most significant byte first. *)
Definition word_be (bs : list Z) : Z :=
  fold_left (fun acc b => 256 * acc + b) (firstn 4 bs) 0.

Definition bytes_le (n : nat) (x : Z) : list Z :=
  map (fun k => byte_at x (Z.of_nat k)) (seq 0 n).
Definition bytes_be (n : nat) (x : Z) : list Z := rev (bytes_le n x).

(** The sixteen message words of the [i]-th 64-byte block. *)
Definition block_words (word : list Z -> Z) (msg : list Z) (i : nat)
  : list Z :=
  map (fun j => word (skipn (64 * i + 4 * j) msg)) (seq 0 16).

(** Merkle-Damgard padding shared by MD5 and SHA-256: a 0x80 byte, zeros
    up to 56 modulo 64, then the bit length in eight bytes. *)
Definition pad (len64 : Z -> list Z) (msg : list Z) : list Z :=
  let n := Z.of_nat (length msg) in
  msg ++ 128 :: repeat 0 (Z.to_nat ((55 - n) mod 64))
      ++ len64 ((8 * n) mod 2 ^ 64).

End Bytes.

(** ** MD5 (RFC 1321), the digest of the mining loop *)

Module MD5.
Import Bytes.

Record state := State { sA : Z; sB : Z; sC : Z; sD : Z }.

Definition init : state :=
  State 0x67452301 0xefcdab89 0x98badcfe 0x10325476.

(** Per-round left rotations. *)
Definition shifts : list Z :=
  [7; 12; 17; 22; 7; 12; 17; 22; 7; 12; 17; 22; 7; 12; 17; 22;
   5; 9; 14; 20; 5; 9; 14; 20; 5; 9; 14; 20; 5; 9; 14; 20;
   4; 11; 16; 23; 4; 11; 16; 23; 4; 11; 16; 23; 4; 11; 16; 23;
   6; 10; 15; 21; 6; 10; 15; 21; 6; 10; 15; 21; 6; 10; 15; 21].

(** [sines !! i] is the integer part of 2^32 * |sin (i + 1)|. *)
Definition sines : list Z :=
  [0xd76aa478; 0xe8c7b756; 0x242070db; 0xc1bdceee;
   0xf57c0faf; 0x4787c62a; 0xa8304613; 0xfd469501;
   0x698098d8; 0x8b44f7af; 0xffff5bb1; 0x895cd7be;
   0x6b901122; 0xfd987193; 0xa679438e; 0x49b40821;
   0xf61e2562; 0xc040b340; 0x265e5a51; 0xe9b6c7aa;
   0xd62f105d; 0x02441453; 0xd8a1e681; 0xe7d3fbc8;
   0x21e1cde6; 0xc33707d6; 0xf4d50d87; 0x455a14ed;
   0xa9e3e905; 0xfcefa3f8; 0x676f02d9; 0x8d2a4c8a;
   0xfffa3942; 0x8771f681; 0x6d9d6122; 0xfde5380c;
   0xa4beea44; 0x4bdecfa9; 0xf6bb4b60; 0xbebfbc70;
   0x289b7ec6; 0xeaa127fa; 0xd4ef3085; 0x04881d05;
   0xd9d4d039; 0xe6db99e5; 0x1fa27cf8; 0xc4ac5665;
   0xf4292244; 0x432aff97; 0xab9423a7; 0xfc93a039;
   0x655b59c3; 0x8f0ccc92; 0xffeff47d; 0x85845dd1;
   0x6fa87e4f; 0xfe2ce6e0; 0xa3014314; 0x4e0811a1;
   0xf7537e82; 0xbd3af235; 0x2ad7d2bb; 0xeb86d391].

(** The round function and the index of the message word of step [i]. *)
Definition mix (i : Z) (b c d : Z) : Z * Z :=
  if i <? 16 then (Z.lor (Z.land b c) (Z.land (not32 b) d), i)
  else if i <? 32 then
    (Z.lor (Z.land d b) (Z.land (not32 d) c), (5 * i + 1) mod 16)
  else if i <? 48 then (Z.lxor (Z.lxor b c) d, (3 * i + 5) mod 16)
  else (Z.lxor c (Z.lor b (not32 d)), (7 * i) mod 16).

Definition step (m : list Z) (st : state) (i : nat) : state :=
  let '(f, g) := mix (Z.of_nat i) (sB st) (sC st) (sD st) in
  let f' := add32 (add32 (add32 f (sA st)) (nth i sines 0))
                  (nth (Z.to_nat g) m 0) in
  State (sD st) (add32 (sB st) (rotl32 f' (nth i shifts 0)))
        (sB st) (sC st).

Definition compress (msg : list Z) (h : state) (blk : nat) : state :=
  let r := fold_left (step (block_words word_le msg blk)) (seq 0 64) h in
  State (add32 (sA h) (sA r)) (add32 (sB h) (sB r))
        (add32 (sC h) (sC r)) (add32 (sD h) (sD r)).

Definition digest (msg : list Z) : list Z :=
  let p := pad (bytes_le 8) msg in
  let h := fold_left (compress p) (seq 0 (length p / 64)) init in
  bytes_le 4 (sA h) ++ bytes_le 4 (sB h)
    ++ bytes_le 4 (sC h) ++ bytes_le 4 (sD h).

(** [crypto.createHash('MD5').update(s).digest('hex')] *)
Definition md5_hex (s : string) : string := hex (digest (of_string s)).

End MD5.

(** ** SHA-256 (FIPS 180-4), the digest of [Block.hash] *)

Module SHA256.
Import Bytes.

Record state := State {
  sA : Z; sB : Z; sC : Z; sD : Z; sE : Z; sF : Z; sG : Z; sH : Z }.

Definition primes : list Z :=
  [2; 3; 5; 7; 11; 13; 17; 19; 23; 29; 31; 37; 41; 43; 47; 53;
   59; 61; 67; 71; 73; 79; 83; 89; 97; 101; 103; 107; 109; 113; 127; 131;
   137; 139; 149; 151; 157; 163; 167; 173; 179; 181; 191; 193; 197; 199;
   211; 223; 227; 229; 233; 239; 241; 251; 257; 263; 269; 271; 277; 281;
   283; 293; 307; 311].

(** Integer cube root, one bit at a time from bit 39 down. *)
Definition icbrt (n : Z) : Z :=
  fold_left
    (fun r k => let r' := r + 2 ^ Z.of_nat k in
                if r' * r' * r' <=? n then r' else r)
    (rev (seq 0 40)) 0.

(** Round constants: the first 32 bits of the fractional parts of the cube
    roots of the first 64 primes. *)
Definition K : list Z :=
  Eval vm_compute in map (fun p => wrap32 (icbrt (p * 2 ^ 96))) primes.

(** Initial state: the same of the square roots of the first 8 primes. *)
Definition init : state :=
  Eval vm_compute in
    let h i := wrap32 (Z.sqrt (nth i primes 0 * 2 ^ 64)) in
    State (h 0%nat) (h 1%nat) (h 2%nat) (h 3%nat)
          (h 4%nat) (h 5%nat) (h 6%nat) (h 7%nat).

Definition Ch (x y z : Z) : Z := Z.lxor (Z.land x y) (Z.land (not32 x) z).
Definition Maj (x y z : Z) : Z :=
  Z.lxor (Z.lxor (Z.land x y) (Z.land x z)) (Z.land y z).
Definition Sigma0 (x : Z) : Z :=
  Z.lxor (Z.lxor (rotr32 x 2) (rotr32 x 13)) (rotr32 x 22).
Definition Sigma1 (x : Z) : Z :=
  Z.lxor (Z.lxor (rotr32 x 6) (rotr32 x 11)) (rotr32 x 25).
Definition sigma0 (x : Z) : Z :=
  Z.lxor (Z.lxor (rotr32 x 7) (rotr32 x 18)) (Z.shiftr x 3).
Definition sigma1 (x : Z) : Z :=
  Z.lxor (Z.lxor (rotr32 x 17) (rotr32 x 19)) (Z.shiftr x 10).

(** The message schedule, extended from 16 to 64 words. *)
Definition schedule (m : list Z) : list Z :=
  fold_left
    (fun w t =>
       w ++ [add32 (add32 (sigma1 (nth (t - 2) w 0)) (nth (t - 7) w 0))
                   (add32 (sigma0 (nth (t - 15) w 0)) (nth (t - 16) w 0))])
    (seq 16 48) m.

Definition step (w : list Z) (st : state) (t : nat) : state :=
  let t1 := add32 (add32 (add32 (sH st) (Sigma1 (sE st)))
                         (Ch (sE st) (sF st) (sG st)))
                  (add32 (nth t K 0) (nth t w 0)) in
  let t2 := add32 (Sigma0 (sA st)) (Maj (sA st) (sB st) (sC st)) in
  State (add32 t1 t2) (sA st) (sB st) (sC st)
        (add32 (sD st) t1) (sE st) (sF st) (sG st).

Definition compress (msg : list Z) (h : state) (blk : nat) : state :=
  let w := schedule (block_words word_be msg blk) in
  let r := fold_left (step w) (seq 0 64) h in
  State (add32 (sA h) (sA r)) (add32 (sB h) (sB r))
        (add32 (sC h) (sC r)) (add32 (sD h) (sD r))
        (add32 (sE h) (sE r)) (add32 (sF h) (sF r))
        (add32 (sG h) (sG r)) (add32 (sH h) (sH r)).

Definition words (h : state) : list Z :=
  [sA h; sB h; sC h; sD h; sE h; sF h; sG h; sH h].

Definition digest (msg : list Z) : list Z :=
  let p := pad (bytes_be 8) msg in
  let h := fold_left (compress p) (seq 0 (length p / 64)) init in
  concat (map (bytes_be 4) (words h)).

(** [crypto.createHash('SHA256').update(s).digest('hex')] *)
Definition sha256_hex (s : string) : string := hex (digest (of_string s)).

End SHA256.

(** ** JavaScript values and their text

    [Number.prototype.toString] and [JSON.stringify] on the values the
    program passes to them.  A [number] is an integer or one of the three
    non-finite doubles; fractional doubles (whose digits come from the
    shortest round-trip algorithm) are outside the model. *)

Module JS.
Local Open Scope string_scope.

Inductive number := Int (z : Z) | NaN | Infinity | NegInfinity.

(** Decimal digits of an integer, with a leading minus sign when negative:
    [z.toString()] for an integer-valued [z]. *)
Definition Z_toString (z : Z) : string :=
  NilEmpty.string_of_int (Z.to_int z).

Definition dquote : ascii := Eval compute in ascii_of_nat 34.
Definition backslash : ascii := Eval compute in ascii_of_nat 92.

(** [JSON.stringify] writes a number that is not finite as [null]. *)
Definition stringify_number (x : number) : string :=
  match x with
  | Int z => Z_toString z
  | NaN | Infinity | NegInfinity => "null"
  end.

(** One character of a JSON string literal (QuoteJSONString): the quote,
    the backslash and the control characters are escaped, every other
    byte is copied. *)
Definition escape (c : ascii) (rest : string) : string :=
  match N_of_ascii c with
  | 8 => String backslash (String "b" rest)
  | 9 => String backslash (String "t" rest)
  | 10 => String backslash (String "n" rest)
  | 12 => String backslash (String "f" rest)
  | 13 => String backslash (String "r" rest)
  | 34 => String backslash (String dquote rest)
  | 92 => String backslash (String backslash rest)
  | n => if (n <? 32)%N
         then String backslash
                (String "u" (String "0" (String "0"
                   (Bytes.hex_byte (Z.of_N n) rest))))
         else String c rest
  end%N.

Fixpoint escape_all (s : string) (rest : string) : string :=
  match s with
  | EmptyString => rest
  | String c s' => escape c (escape_all s' rest)
  end.

(** [JSON.stringify(s)] for a string [s], followed by [rest]. *)
Definition quote (s : string) (rest : string) : string :=
  String dquote (escape_all s (String dquote rest)).

(** A property name and its colon. *)
Definition key (name : string) (rest : string) : string :=
  String dquote (name ++ String dquote (String ":" rest)).

(** *** Reading back, used to show that the text determines the value *)

Definition unhex (c : ascii) : option N :=
  let n := N_of_ascii c in
  if ((48 <=? n) && (n <=? 57))%N then Some (n - 48)%N
  else if ((97 <=? n) && (n <=? 102))%N then Some (n - 87)%N
  else None.

Definition unescape_simple (e : ascii) : option ascii :=
  match N_of_ascii e with
  | 98 => Some (ascii_of_N 8)
  | 116 => Some (ascii_of_N 9)
  | 110 => Some (ascii_of_N 10)
  | 102 => Some (ascii_of_N 12)
  | 114 => Some (ascii_of_N 13)
  | 34 => Some dquote
  | 92 => Some backslash
  | _ => None
  end%N.

Definition push_char (c : ascii) (r : option (string * string))
  : option (string * string) :=
  match r with
  | Some (s, rest) => Some (String c s, rest)
  | None => None
  end.

(** Reads the body of a string literal up to its closing quote; returns
    the string it denotes and what follows the quote. *)
Fixpoint unquote_body (s : string) : option (string * string) :=
  match s with
  | EmptyString => None
  | String c r =>
      if Ascii.eqb c dquote then Some (EmptyString, r)
      else if Ascii.eqb c backslash then
        match r with
        | EmptyString => None
        | String e r1 =>
            match unescape_simple e with
            | Some d => push_char d (unquote_body r1)
            | None =>
                match r1 with
                | String _ (String _ (String h (String l r2))) =>
                    match unhex h, unhex l with
                    | Some x, Some y =>
                        push_char (ascii_of_N (16 * x + y))
                                  (unquote_body r2)
                    | _, _ => None
                    end
                | _ => None
                end
            end
        end
      else push_char c (unquote_body r)
  end.

Definition is_numeral_char (c : ascii) : bool :=
  let n := N_of_ascii c in ((n =? 45) || ((48 <=? n) && (n <=? 57)))%N.

Fixpoint all_numeral (s : string) : bool :=
  match s with
  | EmptyString => true
  | String c s' => is_numeral_char c && all_numeral s'
  end.

(** Does the character occur in the string? *)
Fixpoint occurs (c : ascii) (s : string) : bool :=
  match s with
  | EmptyString => false
  | String d s' => Ascii.eqb c d || occurs c s'
  end.

End JS.

(** ** The RSA half of [crypto]

    Key generation, [createSign('SHA256')] and [createVerify('SHA256')] are
    the provider's: the program only passes keys and signatures around.
    They enter the development as an interface, which gives the provider's
    answers on keys it can read (PEM text, as [generateKeyPairSync] makes
    them). *)

Definition Buffer := list Z.

Class Crypto := {
  (** [createSign('SHA256').update(data).sign(privateKey)] *)
  rsa_sign : string -> string -> Buffer;
  (** [createVerify('SHA256').update(data).verify(publicKey, signature)] *)
  rsa_verify : string -> string -> Buffer -> bool
}.

(** A symbolic provider, for evaluating the program: the private key of
    [pub] is [pub] behind a tag, and a signature is the signing key followed
    by the signed text. *)
Module Symbolic.
Local Open Scope string_scope.

Definition private_of (pub : string) : string := "private:" ++ pub.

Definition sign (priv data : string) : Buffer :=
  Bytes.of_string (priv ++ data).

Definition verify (pub data : string) (signature : Buffer) : bool :=
  bool_decide (signature = sign (private_of pub) data).

#[export] Instance crypto : Crypto :=
  {| rsa_sign := sign; rsa_verify := verify |}.
End Symbolic.

(** ** The program *)

Section Program.
Context {provider : Crypto}.
Local Open Scope string_scope.

(** *** class Transaction *)

Record Transaction := {
  amount : JS.number;
  payer : string;
  payee : string
}.

(** [JSON.stringify] of a transaction, followed by [rest]: the own
    properties in creation order. *)
Definition stringify_Transaction (t : Transaction) (rest : string)
  : string :=
  String "{"
    (JS.key "amount"
       (JS.stringify_number (amount t) ++
        String "," (JS.key "payer" (JS.quote (payer t)
       (String "," (JS.key "payee" (JS.quote (payee t)
       (String "}" rest)))))))).

Definition toString (t : Transaction) : string :=
  stringify_Transaction t "".

(** *** class Block *)

Record Block := {
  prevHash : string;
  transaction : Transaction;
  ts : Z;
  nonce : Z
}.

(** What a [new Block(...)] reads from its surroundings:
    [Math.round(Math.random() * 999999999)] and [Date.now()]. *)
Record Env := { random_nonce : Z; date_now : Z }.

Definition new_Block (env : Env) (prevHash : string)
    (transaction : Transaction) : Block :=
  {| prevHash := prevHash; transaction := transaction;
     ts := date_now env; nonce := random_nonce env |}.

(** [JSON.stringify(this)] inside [Block]: the constructor assigns the
    parameter properties first and the initialised field [nonce] last. *)
Definition stringify_Block (b : Block) : string :=
  String "{"
    (JS.key "prevHash" (JS.quote (prevHash b)
    (String "," (JS.key "transaction"
       (stringify_Transaction (transaction b)
    (String "," (JS.key "ts"
       (JS.Z_toString (ts b) ++
        String "," (JS.key "nonce"
       (JS.Z_toString (nonce b) ++ "}")))))))))).

(** [get hash()] *)
Definition hash (b : Block) : string :=
  SHA256.sha256_hex (stringify_Block b).


(** *** class Chain

    The singleton [Chain.instance] is the state every method runs in.  A
    call returns, throws, or is still inside the mining loop when the fuel
    is spent. *)

Record Chain := { chain : list Block }.

Inductive exn := TypeError.

Inductive outcome (A : Type) :=
| Returns (a : A) (c : Chain)
| Throws (e : exn) (c : Chain)
| OutOfFuel.
Arguments Returns {A} a c.
Arguments Throws {A} e c.
Arguments OutOfFuel {A}.

Definition method (A : Type) := Chain -> outcome A.

Definition ret {A} (a : A) : method A := fun c => Returns a c.
Definition throw {A} (e : exn) : method A := fun c => Throws e c.
Definition bind {A B} (m : method A) (k : A -> method B) : method B :=
  fun c => match m c with
           | Returns a c' => k a c'
           | Throws e c' => Throws e c'
           | OutOfFuel => OutOfFuel
           end.
Notation "'let!' x ':=' m 'in' k" := (bind m (fun x => k))
  (at level 10, x name, m at level 100, k at level 200).

(** The state a call leaves behind, when it comes back at all. *)
Definition final {A} (o : outcome A) : option Chain :=
  match o with
  | Returns _ c | Throws _ c => Some c
  | OutOfFuel => None
  end.

(** [constructor()] *)
Definition new_Chain (env : Env) : Chain :=
  {| chain := [new_Block env ""
                 {| amount := JS.Int 100; payer := "genesis";
                    payee := "satoshi" |}] |}.

(** [get lastBlock()]: [undefined] (here [None]) when there is no such
    element.  On an empty chain JavaScript looks up index -1 and the
    truncated subtraction below looks up index 0; neither exists. *)
Definition lastBlock : method (option Block) :=
  fun c => Returns (chain c !! (length (chain c) - 1)%nat) c.

(** Reading [.hash] off what [lastBlock] gave. *)
Definition hash_of (b : option Block) : method string :=
  match b with
  | Some b => ret (hash b)
  | None => throw TypeError
  end.

(** One turn of the [while (true)] of [mine]. *)
Definition attempt (nonce solution : Z) : string :=
  MD5.md5_hex (JS.Z_toString (nonce + solution)).

Definition solved (nonce solution : Z) : bool :=
  String.eqb (substring 0 4 (attempt nonce solution)) "0000".

Fixpoint mine_loop (fuel : nat) (nonce solution : Z) : option Z :=
  match fuel with
  | O => None
  | S fuel' =>
      if solved nonce solution then Some solution
      else mine_loop fuel' nonce (solution + 1)
  end.

(** [mine(nonce)]; the two [console.log] lines are left out. *)
Definition mine (fuel : nat) (nonce : Z) : method Z :=
  fun c => match mine_loop fuel nonce 1 with
           | Some solution => Returns solution c
           | None => OutOfFuel
           end.

Definition push (b : Block) : method unit :=
  fun c => Returns tt {| chain := chain c ++ [b] |}.

(** [addBlock(transaction, senderPublicKey, signature)] *)
Definition addBlock (fuel : nat) (env : Env) (transaction : Transaction)
    (senderPublicKey : string) (signature : Buffer) : method unit :=
  let isValid :=
    rsa_verify senderPublicKey (toString transaction) signature in
  if isValid then
    let! last := lastBlock in
    let! prev := hash_of last in
    let newBlock := new_Block env prev transaction in
    let! solution := mine fuel (nonce newBlock) in
    push newBlock
  else ret tt.

(** *** class Wallet *)

Record Wallet := { publicKey : string; privateKey : string }.

(** [sendMoney(amount, payeePublicKey)] *)
Definition sendMoney (fuel : nat) (env : Env) (w : Wallet)
    (amount : JS.number) (payeePublicKey : string) : method unit :=
  let transaction :=
    {| amount := amount; payer := publicKey w;
       payee := payeePublicKey |} in
  let signature := rsa_sign (privateKey w) (toString transaction) in
  addBlock fuel env transaction (publicKey w) signature.

(** *** The ledger as a state machine *)

Inductive call :=
| call_lastBlock
| call_mine (nonce : Z)
| call_addBlock (env : Env) (transaction : Transaction)
    (senderPublicKey : string) (signature : Buffer)
| call_sendMoney (env : Env) (w : Wallet) (amount : JS.number)
    (payeePublicKey : string).

Definition run (fuel : nat) (op : call) (c : Chain) : option Chain :=
  match op with
  | call_lastBlock => final (lastBlock c)
  | call_mine n => final (mine fuel n c)
  | call_addBlock env t pk sig => final (addBlock fuel env t pk sig c)
  | call_sendMoney env w a p => final (sendMoney fuel env w a p c)
  end.

Inductive reachable : Chain -> Prop :=
| reachable_new env : reachable (new_Chain env)
| reachable_run fuel op c c' :
    reachable c -> run fuel op c = Some c' -> reachable c'.

(** Every block names the hash of the block before it. *)
Definition linked (c : Chain) : Prop :=
  forall (i : nat) b b',
    chain c !! i = Some b -> chain c !! S i = Some b' ->
    prevHash b' = hash b.

Definition genesis_first (c : Chain) : Prop :=
  (1 <= length (chain c))%nat /\
  exists g, chain c !! 0%nat = Some g /\ prevHash g = "".

End Program.

Arguments Returns {A} a c.
Arguments Throws {A} e c.
Arguments OutOfFuel {A}.
Arguments JS.quote : simpl never.
Arguments stringify_Transaction : simpl never.
Arguments JS.Z_toString : simpl never.
Arguments MD5.md5_hex : simpl never.
Arguments SHA256.sha256_hex : simpl never.

(** ** The example usage at the end of the source, with symbolic keys *)

Module Demo.
Local Open Scope string_scope.

Definition wallet (name : string) : Wallet :=
  {| publicKey := name; privateKey := Symbolic.private_of name |}.

Definition satoshi : Wallet := wallet "satoshi".
Definition bob : Wallet := wallet "bob".
Definition alice : Wallet := wallet "alice".

(** The ledger as [new Chain()] leaves it, and its only block. *)
Definition env0 : Env :=
  {| random_nonce := 7; date_now := 1700000000000 |}.
Definition start : Chain := new_Chain env0.
Definition genesis : Block :=
  new_Block env0 "" {| amount := JS.Int 100; payer := "genesis";
                       payee := "satoshi" |}.

(** A block construction that draws the nonce 5328. *)
Definition env1 : Env :=
  {| random_nonce := 5328; date_now := 1700000000001 |}.

(** The transaction of [satoshi.sendMoney(50, bob.publicKey)] and its
    signature. *)
Definition tx1 : Transaction :=
  {| amount := JS.Int 50; payer := publicKey satoshi;
     payee := publicKey bob |}.
Definition sig1 : Buffer :=
  rsa_sign (Crypto := Symbolic.crypto) (privateKey satoshi) (toString tx1).

(** The block that call appends, and the ledger after it. *)
Definition block1 : Block :=
  {| prevHash :=
       "02501eaabd1c7158e2e15bf48c7f314273052f307147353e28c02ea7731ad6bb";
     transaction := tx1; ts := 1700000000001; nonce := 5328 |}.
Definition after1 : Chain := {| chain := chain start ++ [block1] |}.

(** The same transfer, signed by alice instead of its payer. *)
Definition sig1_alice : Buffer :=
  rsa_sign (Crypto := Symbolic.crypto) (privateKey alice) (toString tx1).

End Demo.

(** ** Sequences of calls, and the script at the end of the source *)

Section Scripts.
Context {provider : Crypto}.

(** Calls made one after the other, each with its own fuel; a call that
    is still mining when its fuel is spent ends the sequence. *)
Fixpoint run_all (ops : list (nat * call)) (c : Chain) : option Chain :=
  match ops with
  | [] => Some c
  | (fuel, op) :: ops' =>
      match run fuel op c with
      | Some c' => run_all ops' c'
      | None => None
      end
  end.

(** [new Wallet()]: the constructor stores the two keys of the pair
    [generateKeyPairSync] hands it, here (public, private). *)
Definition new_Wallet (keypair : string * string) : Wallet :=
  {| publicKey := fst keypair; privateKey := snd keypair |}.

(** The statements under "Example usage": three wallets, then three
    transfers on [Chain.instance]; the final [console.log] is left out. *)
Definition example_usage (fuel : nat) (k1 k2 k3 : string * string)
    (e1 e2 e3 : Env) : method unit :=
  let satoshi := new_Wallet k1 in
  let bob := new_Wallet k2 in
  let alice := new_Wallet k3 in
  bind (sendMoney fuel e1 satoshi (JS.Int 50) (publicKey bob)) (fun _ =>
  bind (sendMoney fuel e2 bob (JS.Int 23) (publicKey alice)) (fun _ =>
  sendMoney fuel e3 alice (JS.Int 5) (publicKey bob))).

End Scripts.


(** Lowercase hexadecimal digits. *)
Definition is_hex_char (c : ascii) : bool :=
  let n := N_of_ascii c in
  (((48 <=? n) && (n <=? 57)) || ((97 <=? n) && (n <=? 102)))%N.

Fixpoint all_hex (s : string) : bool :=
  match s with
  | EmptyString => true
  | String c s' => is_hex_char c && all_hex s'
  end.

(** More draws for the example usage: nonces whose mining stops at once. *)
Module Demo2.
Definition env2 : Env :=
  {| random_nonce := 79041; date_now := 1700000000002 |}.
Definition env3 : Env :=
  {| random_nonce := 194812; date_now := 1700000000003 |}.
Definition keys (name : string) : string * string :=
  (name, Symbolic.private_of name).
Definition empty : Chain := {| chain := [] |}.
End Demo2.

(** * Properties *)

(** ** The text of a value determines the value *)

Section Text.
Import JS.
Local Open Scope string_scope.

(** Reading back what [escape] wrote gives the character and then reads
    on. *)
Lemma unquote_body_escape (c : ascii) (tail : string) :
  unquote_body (escape c tail) = push_char c (unquote_body tail).
Proof.
  destruct c as [[] [] [] [] [] [] [] []]; reflexivity.
Qed.

Lemma unquote_body_escape_all (s rest : string) :
  unquote_body (escape_all s (String dquote rest)) = Some (s, rest).
Proof.
  induction s as [|c s IH]; [reflexivity|].
  cbn [escape_all]. rewrite unquote_body_escape, IH. reflexivity.
Qed.

Lemma escape_all_inj (s s' rest rest' : string) :
  escape_all s (String dquote rest) = escape_all s' (String dquote rest') ->
  s = s' /\ rest = rest'.
Proof.
  intros E. apply (f_equal unquote_body) in E.
  rewrite !unquote_body_escape_all in E. by injection E.
Qed.

Lemma quote_inj (s s' rest rest' : string) :
  quote s rest = quote s' rest' -> s = s' /\ rest = rest'.
Proof. unfold quote. intros [= E]. by apply escape_all_inj. Qed.

(** Cutting two texts at the first occurrence of a separator. *)
Lemma split_at (c : ascii) (s s' rest rest' : string) :
  occurs c s = false -> occurs c s' = false ->
  s ++ String c rest = s' ++ String c rest' -> s = s' /\ rest = rest'.
Proof.
  revert s'. induction s as [|d s IH]; intros [|d' s'] Hs Hs' E;
    cbn in *.
  - by injection E.
  - injection E as -> _. by rewrite Ascii.eqb_refl in Hs'.
  - injection E as <- _. by rewrite Ascii.eqb_refl in Hs.
  - injection E as -> E.
    apply orb_false_elim in Hs as [_ Hs], Hs' as [_ Hs'].
    destruct (IH s' Hs Hs' E) as [-> ->]. done.
Qed.

Lemma numeral_no_occurrence (c : ascii) (s : string) :
  is_numeral_char c = false -> all_numeral s = true -> occurs c s = false.
Proof.
  intros Hc. induction s as [|d s IH]; cbn; [done|].
  intros [Hd Hs]%andb_prop. rewrite (IH Hs), orb_false_r.
  destruct (Ascii.eqb_spec c d) as [->|]; [congruence|done].
Qed.

Lemma string_of_uint_numeral (d : Decimal.uint) :
  all_numeral (NilEmpty.string_of_uint d) = true.
Proof. induction d; cbn; done. Qed.

Lemma Z_toString_numeral (z : Z) : all_numeral (Z_toString z) = true.
Proof.
  unfold Z_toString. destruct (Z.to_int z); cbn;
    apply string_of_uint_numeral.
Qed.

Lemma Z_toString_inj (z z' : Z) : Z_toString z = Z_toString z' -> z = z'.
Proof.
  unfold Z_toString. intros E.
  apply (f_equal NilEmpty.int_of_string) in E.
  rewrite !NilEmpty.isi in E. injection E as E.
  apply (f_equal Z.of_int) in E. by rewrite !DecimalZ.of_to in E.
Qed.


Lemma stringify_number_no_comma (x : number) :
  occurs "," (stringify_number x) = false.
Proof.
  destruct x; cbn; try done.
  by apply numeral_no_occurrence, Z_toString_numeral.
Qed.

Lemma stringify_number_Int_inj (z z' : Z) :
  stringify_number (Int z) = stringify_number (Int z') -> z = z'.
Proof. apply Z_toString_inj. Qed.

End Text.

Section Encoding.
Import JS.
Local Open Scope string_scope.

Lemma String_tail (c : ascii) (s s' : string) :
  String c s = String c s' -> s = s'.
Proof. by intros [= ->]. Qed.

(** Drops the characters two texts visibly share at the front. *)
Local Ltac peel E :=
  repeat (cbn in E;
          lazymatch type of E with
          | String ?c _ = String ?c _ => apply String_tail in E
          end).

(** The text of a transaction fixes payer, payee and the text of the
    amount, and ends where the object ends. *)
Lemma stringify_Transaction_split (t t' : Transaction)
    (rest rest' : string) :
  stringify_Transaction t rest = stringify_Transaction t' rest' ->
  stringify_number (amount t) = stringify_number (amount t') /\
  payer t = payer t' /\ payee t = payee t' /\ rest = rest'.
Proof.
  unfold stringify_Transaction, key. intros E. peel E.
  apply split_at in E as [Ea E]; auto using stringify_number_no_comma.
  peel E. apply quote_inj in E as [Ep E].
  peel E. apply quote_inj in E as [Eq E].
  peel E. done.
Qed.

Lemma toString_Int_inj (t t' : Transaction) (z z' : Z) :
  amount t = Int z -> amount t' = Int z' ->
  toString t = toString t' -> t = t'.
Proof.
  intros Ha Ha' (Ea & Ep & Eq & _)%stringify_Transaction_split.
  rewrite Ha, Ha' in Ea. apply stringify_number_Int_inj in Ea as ->.
  destruct t, t'; cbn in *; congruence.
Qed.


Lemma hex_length (bs : list Z) :
  String.length (Bytes.hex bs) = (2 * length bs)%nat.
Proof. induction bs as [|b bs IH]; cbn in *; [done|]. rewrite IH. lia. Qed.

Lemma sha256_hex_length (s : string) :
  String.length (SHA256.sha256_hex s) = 64%nat.
Proof.
  unfold SHA256.sha256_hex, SHA256.digest.
  by rewrite hex_length.
Qed.

End Encoding.

(** ** The mining loop *)

Section Mining.

(** What the loop returns is the first solution at or after its start. *)
Lemma mine_loop_sound (fuel : nat) (nonce start s : Z) :
  mine_loop fuel nonce start = Some s ->
  start <= s < start + Z.of_nat fuel /\
  solved nonce s = true /\
  forall j, start <= j < s -> solved nonce j = false.
Proof.
  revert start. induction fuel as [|fuel IH]; intros start; cbn [mine_loop];
    [done|].
  destruct (solved nonce start) eqn:Hs.
  - intros [= <-]. repeat split; [lia..|done|lia].
  - intros (Hr & Hok & Hmin)%IH. repeat split; [lia..|done|].
    intros j Hj. destruct (decide (j = start)) as [->|]; [done|].
    apply Hmin. lia.
Qed.





End Mining.

(** ** The ledger *)

Section Ledger.
Context {provider : Crypto}.
Local Open Scope string_scope.

Implicit Types (c : Chain) (b : Block) (t : Transaction) (env : Env).

Lemma lastBlock_last c : lastBlock c = Returns (last (chain c)) c.
Proof. unfold lastBlock. by rewrite last_lookup, Nat.sub_1_r. Qed.

(** [mine] leaves the ledger as it found it. *)
Lemma mine_frame (fuel : nat) (n : Z) c :
  forall o, final (mine fuel n c) = Some o -> o = c.
Proof.
  unfold mine. intros o. destruct (mine_loop fuel n 1); cbn; congruence.
Qed.

Lemma addBlock_invalid (fuel : nat) env t (pk : string) (sig : Buffer) c :
  rsa_verify pk (toString t) sig = false ->
  addBlock fuel env t pk sig c = Returns tt c.
Proof. unfold addBlock. by intros ->. Qed.

(** The three ways a call with a valid signature can go. *)
Lemma addBlock_valid (fuel : nat) env t (pk : string) (sig : Buffer) c :
  rsa_verify pk (toString t) sig = true ->
  addBlock fuel env t pk sig c =
    match last (chain c) with
    | None => Throws TypeError c
    | Some tip =>
        match mine_loop fuel (random_nonce env) 1 with
        | None => OutOfFuel
        | Some _ =>
            Returns tt
              {| chain := chain c ++ [new_Block env (hash tip) t] |}
        end
    end.
Proof.
  unfold addBlock, bind. intros ->. rewrite lastBlock_last.
  destruct (last (chain c)) as [tip|]; cbn; [|done].
  unfold mine. cbn. by destruct (mine_loop _ _ _).
Qed.

Lemma addBlock_returns (fuel : nat) env t (pk : string) (sig : Buffer)
    c c' :
  rsa_verify pk (toString t) sig = true ->
  addBlock fuel env t pk sig c = Returns tt c' ->
  exists tip solution,
    last (chain c) = Some tip /\
    mine_loop fuel (random_nonce env) 1 = Some solution /\
    c' = {| chain := chain c ++ [new_Block env (hash tip) t] |}.
Proof.
  intros Hv. rewrite (addBlock_valid _ _ _ _ _ _ Hv).
  destruct (last (chain c)) as [tip|]; [|done].
  destruct (mine_loop _ _ _) as [s|]; [|done].
  intros [= <-]. eauto.
Qed.

(** The handshake: a wallet signs the very text [addBlock] verifies, so
    when signatures made with the private key of a generated pair verify
    under its public key, the transfer passes the check. *)
Section Handshake.
Variable key_pair : string -> string -> Prop.
Hypothesis verify_sign : forall pub priv data,
  key_pair pub priv -> rsa_verify pub data (rsa_sign priv data) = true.

Lemma sendMoney_valid (fuel : nat) env (w : Wallet) (a : JS.number)
    (p : string) c :
  key_pair (publicKey w) (privateKey w) ->
  sendMoney fuel env w a p c =
    match last (chain c) with
    | None => Throws TypeError c
    | Some tip =>
        match mine_loop fuel (random_nonce env) 1 with
        | None => OutOfFuel
        | Some _ =>
            Returns tt
              {| chain := chain c ++
                   [new_Block env (hash tip)
                      {| amount := a; payer := publicKey w;
                         payee := p |}] |}
        end
    end.
Proof.
  intros Hk. unfold sendMoney. apply addBlock_valid.
  by apply verify_sign.
Qed.

(** With signatures that bind the signed text, a transfer whose
    integer amount, payer or payee is changed after signing no longer
    verifies: the text determines all three. *)
Hypothesis verify_binds : forall pub priv data data',
  key_pair pub priv ->
  rsa_verify pub data' (rsa_sign priv data) = true -> data' = data.

Lemma changed_transfer_rejected (w : Wallet) t t' (z z' : Z) :
  key_pair (publicKey w) (privateKey w) ->
  amount t = JS.Int z -> amount t' = JS.Int z' -> t' <> t ->
  rsa_verify (publicKey w) (toString t')
    (rsa_sign (privateKey w) (toString t)) = false.
Proof.
  intros Hk Ha Ha' Hne. apply not_true_is_false. intros Hv.
  apply verify_binds in Hv; [|done].
  by apply (toString_Int_inj _ _ _ _ Ha' Ha) in Hv.
Qed.
End Handshake.

(** Whatever a call does, the ledger afterwards is the ledger before,
    with at most one block added at the end. *)
Lemma run_extends (fuel : nat) (op : call) c c' :
  run fuel op c = Some c' ->
  c' = c \/
  exists tip env t,
    last (chain c) = Some tip /\
    c' = {| chain := chain c ++ [new_Block env (hash tip) t] |}.
Proof.
  assert (Hadd : forall env t pk sig,
    final (addBlock fuel env t pk sig c) = Some c' ->
    c' = c \/ exists tip env t,
      last (chain c) = Some tip /\
      c' = {| chain := chain c ++ [new_Block env (hash tip) t] |}).
  { intros env t pk sig.
    destruct (rsa_verify pk (toString t) sig) eqn:Hv.
    - rewrite (addBlock_valid _ _ _ _ _ _ Hv).
      destruct (last (chain c)) as [tip|] eqn:Hl; cbn; [|left; congruence].
      destruct (mine_loop _ _ _); cbn; [|done].
      intros [= <-]. right. eauto.
    - rewrite (addBlock_invalid _ _ _ _ _ _ Hv). cbn. left. congruence. }
  destruct op as [|n|env t pk sig|env w a p]; cbn.
  - left. congruence.
  - intros ->%mine_frame. by left.
  - apply Hadd.
  - unfold sendMoney. apply Hadd.
Qed.

Lemma linked_new env : linked (new_Chain env).
Proof. intros i b b' _ Hb'. by destruct i. Qed.

Lemma linked_push c tip b :
  linked c -> last (chain c) = Some tip -> prevHash b = hash tip ->
  linked {| chain := chain c ++ [b] |}.
Proof.
  intros Hc Htip Hb i x y Hx Hy. cbn in *.
  rewrite last_lookup in Htip.
  destruct (decide (S i < length (chain c))%nat) as [Hlt|Hge].
  - rewrite lookup_app_l in Hx, Hy by lia. eauto.
  - assert (S i = length (chain c)) as Hi.
    { apply lookup_lt_Some in Hy. rewrite length_app in Hy. cbn in Hy.
      lia. }
    rewrite lookup_app_l in Hx by lia.
    rewrite lookup_app_r, Hi, Nat.sub_diag in Hy by lia.
    injection Hy as <-. rewrite <- Hi in Htip. cbn in Htip. congruence.
Qed.

Lemma genesis_first_new env : genesis_first (new_Chain env).
Proof. split; [cbn; lia|]. eexists. split; [reflexivity|reflexivity]. Qed.

Lemma genesis_first_push c b :
  genesis_first c -> genesis_first {| chain := chain c ++ [b] |}.
Proof.
  intros [Hlen (g & Hg & Hp)]. split; cbn.
  - rewrite length_app. lia.
  - exists g. split; [|done]. by apply lookup_app_l_Some.
Qed.

Lemma run_linked (fuel : nat) (op : call) c c' :
  linked c -> run fuel op c = Some c' -> linked c'.
Proof.
  intros Hc [->|(tip & env & t & Htip & ->)]%run_extends; [done|].
  by eapply linked_push.
Qed.

Lemma run_genesis_first (fuel : nat) (op : call) c c' :
  genesis_first c -> run fuel op c = Some c' -> genesis_first c'.
Proof.
  intros Hc [->|(tip & env & t & Htip & ->)]%run_extends; [done|].
  by apply genesis_first_push.
Qed.

Lemma reachable_linked c : reachable c -> linked c.
Proof.
  induction 1 as [env|fuel op c c' _ IH Hrun];
    eauto using linked_new, run_linked.
Qed.

Lemma reachable_genesis_first c : reachable c -> genesis_first c.
Proof.
  induction 1 as [env|fuel op c c' _ IH Hrun];
    eauto using genesis_first_new, run_genesis_first.
Qed.

End Ledger.

(** ** The digests against published test vectors *)

Example md5_empty :
  MD5.md5_hex "" = "d41d8cd98f00b204e9800998ecf8427e"%string.
Proof. vm_compute. reflexivity. Qed.

Example md5_abc :
  MD5.md5_hex "abc" = "900150983cd24fb0d6963f7d28e17f72"%string.
Proof. vm_compute. reflexivity. Qed.

Example md5_two_blocks :
  MD5.md5_hex
    "12345678901234567890123456789012345678901234567890123456789012345678901234567890"
  = "57edf4a22be3c955ac49da2e2107b67a"%string.
Proof. vm_compute. reflexivity. Qed.

Example sha256_constants :
  nth 0 SHA256.K 0 = 0x428a2f98 /\ nth 63 SHA256.K 0 = 0xc67178f2 /\
  SHA256.sA SHA256.init = 0x6a09e667 /\ SHA256.sH SHA256.init = 0x5be0cd19.
Proof. vm_compute. repeat split. Qed.

Example sha256_abc :
  SHA256.sha256_hex "abc"
  = "ba7816bf8f01cfea414140de5dae2223b00361a396177a9cb410ff61f20015ad"%string.
Proof. vm_compute. reflexivity. Qed.

Example sha256_two_blocks :
  SHA256.sha256_hex
    "abcdbcdecdefdefgefghfghighijhijkijkljklmklmnlmnomnopnopq"
  = "248d6a61d20638b8e5c026930c3e6039a33ce45964ff2167f6ecedd419db06c1"%string.
Proof. vm_compute. reflexivity. Qed.

(** ** The example usage, evaluated *)

(** The text of the first transfer is the JSON one expects, an object with
    the members amount 50, payer satoshi and payee bob, here by its digest. *)
Example demo_toString :
  SHA256.sha256_hex (toString Demo.tx1)
  = "a1a4041ee58617857ebc53d9f2598578ee0cdaaf8391c2a770b2abfe9180f727"%string.
Proof. vm_compute. reflexivity. Qed.

(** A non-finite amount is written as null, and a line feed, a quote and a
    backslash inside a key are escaped. *)
Example demo_toString_escapes :
  SHA256.sha256_hex
    (toString {| amount := JS.NaN;
                 payer := String "a" (String (ascii_of_nat 10) "b");
                 payee := String "q" (String JS.dquote "\") |})
  = "01c9ce07a28fa397bacd647df7f6e9c7168ba0d9ed1dc28f9ebe269fe991e380"%string.
Proof. vm_compute. reflexivity. Qed.

Example demo_first_transfer :
  sendMoney (provider := Symbolic.crypto) 1 Demo.env1 Demo.satoshi
    (JS.Int 50) (publicKey Demo.bob) Demo.start
  = Returns tt Demo.after1.
Proof. vm_compute. reflexivity. Qed.

Example demo_mining_5328 :
  attempt 5328 1 = "00003e3b9e5336685200ae85d21b4f5e"%string.
Proof. vm_compute. reflexivity. Qed.

(** ** What the ledger guarantees *)

Section Guarantees.
Context {provider : Crypto}.
Local Open Scope string_scope.

Implicit Types (c : Chain) (b : Block) (t : Transaction) (env : Env).

(** C1, as the code has it: a successful admission builds
    [newBlock = Block(lastBlock.hash, transaction)], runs [mine] on
    [newBlock.nonce] to completion, and appends [newBlock] as it was
    built.  The solution [mine] returns solves the puzzle for the stored
    nonce; the stored nonce itself is the one drawn at construction. *)
Theorem addBlock_mines_then_appends (fuel : nat) env t (pk : string)
    (sig : Buffer) c c' :
  rsa_verify pk (toString t) sig = true ->
  addBlock fuel env t pk sig c = Returns tt c' ->
  exists tip solution newBlock,
    last (chain c) = Some tip /\
    newBlock = new_Block env (hash tip) t /\
    mine fuel (nonce newBlock) c = Returns solution c /\
    solved (nonce newBlock) solution = true /\
    c' = {| chain := chain c ++ [newBlock] |} /\
    nonce newBlock = random_nonce env.
Proof.
  intros Hv (tip & s & Htip & Hs & ->)%addBlock_returns; [|done].
  exists tip, s, (new_Block env (hash tip) t).
  repeat split; try done.
  - unfold mine. cbn. by rewrite Hs.
  - by apply mine_loop_sound in Hs as (_ & ? & _).
Qed.

(** C2: in every reachable ledger, each block after the first carries in
    [prevHash] the hash of the block stored before it (the hash of that
    block as stored, nonce included), and every call leaves the ledger
    linked in this way. *)
Theorem chain_linkage c :
  reachable c ->
  (forall (i : nat) b b',
     (0 < i)%nat ->
     chain c !! (i - 1)%nat = Some b -> chain c !! i = Some b' ->
     prevHash b' = hash b) /\
  (forall fuel op c', run fuel op c = Some c' -> linked c').
Proof.
  intros Hc%reachable_linked. split.
  - intros [|i] b b' Hi Hb Hb'; [lia|].
    cbn in Hb. rewrite Nat.sub_0_r in Hb. eauto.
  - eauto using run_linked.
Qed.



(** C5, at the input where the code departs from it: a wallet signs a
    transfer whose amount is [NaN]; the amount is then changed to
    [Infinity].  The two transactions differ but have the same text, so
    the old signature verifies against the changed transaction whenever it
    verified against the signed one, and [addBlock] appends the changed
    transaction. *)
Theorem amount_change_keeps_signature (w : Wallet) (payee : string)
    (fuel : nat) env c tip (solution : Z) :
  let t := {| amount := JS.NaN; payer := publicKey w; payee := payee |} in
  let t' :=
    {| amount := JS.Infinity; payer := publicKey w; payee := payee |} in
  let signature := rsa_sign (privateKey w) (toString t) in
  rsa_verify (publicKey w) (toString t) signature = true ->
  last (chain c) = Some tip ->
  mine_loop fuel (random_nonce env) 1 = Some solution ->
  t <> t' /\
  toString t' = toString t /\
  rsa_verify (publicKey w) (toString t') signature = true /\
  addBlock fuel env t' (publicKey w) signature c
  = Returns tt {| chain := chain c ++ [new_Block env (hash tip) t'] |}.
Proof.
  intros t t' signature Hv Htip Hs.
  assert (toString t' = toString t) as Htext by reflexivity.
  split; [done|]. split; [done|].
  assert (rsa_verify (publicKey w) (toString t') signature = true) as Hv'
    by (by rewrite Htext).
  split; [done|].
  by rewrite (addBlock_valid _ _ _ _ _ _ Hv'), Htip, Hs.
Qed.

(** C6: a ledger has its genesis block, whose [prevHash] is empty, from
    construction on: in every reachable ledger the chain has at least one
    block and the first block's [prevHash] is the empty string, and every
    call keeps it so. *)
Theorem genesis_invariant c :
  reachable c ->
  (1 <= length (chain c))%nat /\
  (exists g, chain c !! 0%nat = Some g /\ prevHash g = "") /\
  (forall fuel op c', run fuel op c = Some c' -> genesis_first c') /\
  (forall env, genesis_first (new_Chain env)).
Proof.
  intros Hc%reachable_genesis_first.
  destruct Hc as [Hlen Hg] eqn:E. clear E.
  split; [done|]. split; [done|].
  split; [|apply genesis_first_new].
  intros fuel op c'. by apply run_genesis_first.
Qed.


(** C8: [lastBlock] never throws; it answers [undefined] exactly on an
    empty chain, so under the genesis invariant ([chain.length >= 1]) it
    always returns a block, and that block is the final element of the
    chain. *)
Theorem lastBlock_final_element c :
  (1 <= length (chain c))%nat ->
  (exists front b,
     chain c = (front ++ [b])%list /\ lastBlock c = Returns (Some b) c) /\
  (forall c0, lastBlock c0 = Returns None c0 <-> chain c0 = []) /\
  (forall c0, exists r, lastBlock c0 = Returns r c0).
Proof.
  intros Hlen. split; [|split].
  - rewrite lastBlock_last.
    destruct (last (chain c)) as [b|] eqn:Hb.
    + apply last_Some in Hb as [front ->]. eauto.
    + apply last_None in Hb. rewrite Hb in Hlen. cbn in Hlen. lia.
  - intros c0. rewrite lastBlock_last. split.
    + intros [= H]. by apply last_None.
    + intros ->. done.
  - intros c0. rewrite lastBlock_last. eauto.
Qed.

(** C9: [addBlock] never compares [senderPublicKey] with
    [transaction.payer].  Whenever the signature verifies under the key
    that is passed, on a ledger with a last block and with fuel for the
    mining, the call appends a block carrying the transaction, whoever
    its payer is. *)
Theorem addBlock_ignores_payer (fuel : nat) env t (pk : string)
    (sig : Buffer) c tip (solution : Z) :
  rsa_verify pk (toString t) sig = true ->
  last (chain c) = Some tip ->
  mine_loop fuel (random_nonce env) 1 = Some solution ->
  exists b,
    addBlock fuel env t pk sig c
    = Returns tt {| chain := chain c ++ [b] |} /\
    transaction b = t /\ prevHash b = hash tip.
Proof.
  intros Hv Htip Hs. rewrite (addBlock_valid _ _ _ _ _ _ Hv), Htip, Hs.
  by eexists.
Qed.

End Guarantees.

(** C10: in every successful [addBlock], the block that is appended stores
    the nonce drawn when it was built; [mine] returns its solution and
    changes nothing: not the new block, not the blocks already there, not
    the ledger.  Nothing therefore ties the hash of a stored block to the
    mining target: there is a reachable ledger, and a call that succeeds on
    it, after which the hash of the block just stored does not begin with
    four zeros. *)
Theorem addBlock_keeps_drawn_nonce :
  (forall (provider : Crypto) (fuel : nat) (env : Env) (t : Transaction)
          (pk : string) (sig : Buffer) (c c' : Chain),
     rsa_verify pk (toString t) sig = true ->
     addBlock fuel env t pk sig c = Returns tt c' ->
     (exists b, chain c' = (chain c ++ [b])%list /\ nonce b = random_nonce env /\
                exists solution,
                  mine fuel (nonce b) c = Returns solution c) /\
     (forall (i : nat) b, chain c !! i = Some b -> chain c' !! i = Some b) /\
     (forall fuel' n o, final (mine fuel' n c) = Some o -> o = c)) /\
  (exists (provider : Crypto) (fuel : nat) (env : Env) (t : Transaction)
          (pk : string) (sig : Buffer) (c c' : Chain) (b : Block),
     reachable c /\
     addBlock fuel env t pk sig c = Returns tt c' /\
     last (chain c') = Some b /\
     substring 0 4 (hash b) <> "0000"%string).
Proof.
  split.
  - intros provider fuel env t pk sig c c' Hv Hadd.
    destruct (addBlock_returns fuel env t pk sig c c' Hv Hadd)
      as (tip & s & Htip & Hs & ->).
    split; [|split].
    + eexists. split; [reflexivity|]. split; [done|].
      exists s. unfold mine. cbn. by rewrite Hs.
    + intros i b Hb. cbn. by apply lookup_app_l_Some.
    + intros fuel' n o. apply mine_frame.
  - exists Symbolic.crypto, 1%nat, Demo.env1, Demo.tx1, "satoshi"%string,
      Demo.sig1, Demo.start, Demo.after1, Demo.block1.
    split; [apply reachable_new|].
    split; [by vm_compute|]. split; [reflexivity|].
    vm_compute. discriminate.
Qed.

(** ** The guarantees at the example usage *)

Section Instances.
Local Open Scope string_scope.
#[local] Existing Instance Symbolic.crypto.

Lemma demo_reachable : reachable Demo.after1.
Proof.
  apply (reachable_run 1
           (call_sendMoney Demo.env1 Demo.satoshi (JS.Int 50) "bob")
           Demo.start); [apply reachable_new|].
  by vm_compute.
Defined.

Lemma addBlock_mines_then_appends_witness :
  rsa_verify "satoshi" (toString Demo.tx1) Demo.sig1 = true /\
  addBlock 1 Demo.env1 Demo.tx1 "satoshi" Demo.sig1 Demo.start
    = Returns tt Demo.after1 /\
  exists tip solution newBlock,
    last (chain Demo.start) = Some tip /\
    newBlock = new_Block Demo.env1 (hash tip) Demo.tx1 /\
    mine 1 (nonce newBlock) Demo.start = Returns solution Demo.start /\
    solved (nonce newBlock) solution = true /\
    Demo.after1 = {| chain := chain Demo.start ++ [newBlock] |} /\
    nonce newBlock = random_nonce Demo.env1.
Proof.
  split; [by vm_compute|]. split; [by vm_compute|].
  apply (addBlock_mines_then_appends 1 Demo.env1 Demo.tx1
           "satoshi" Demo.sig1 Demo.start Demo.after1); by vm_compute.
Defined.

(** Against C1 as stated: the call below succeeds and mining returns the
    solution 1, yet the block it stores keeps the nonce 5328. *)
Lemma stored_nonce_is_not_the_solution :
  rsa_verify "satoshi" (toString Demo.tx1) Demo.sig1 = true /\
  addBlock 1 Demo.env1 Demo.tx1 "satoshi" Demo.sig1 Demo.start
    = Returns tt Demo.after1 /\
  last (chain Demo.after1) = Some Demo.block1 /\
  mine 1 (random_nonce Demo.env1) Demo.start = Returns 1 Demo.start /\
  nonce Demo.block1 = 5328 /\ nonce Demo.block1 <> 1.
Proof. repeat split; by vm_compute. Qed.

Lemma chain_linkage_witness :
  reachable Demo.after1 /\
  (forall (i : nat) b b',
     (0 < i)%nat ->
     chain Demo.after1 !! (i - 1)%nat = Some b ->
     chain Demo.after1 !! i = Some b' ->
     prevHash b' = hash b) /\
  (forall fuel op c',
     run fuel op Demo.after1 = Some c' -> linked c').
Proof.
  split; [apply demo_reachable|].
  apply (chain_linkage Demo.after1), demo_reachable.
Defined.


(** A forged signature is dropped without a trace. *)
Example addBlock_rejects_forgery :
  addBlock 1 Demo.env1 Demo.tx1 "satoshi" [1; 2; 3]
    Demo.start
  = Returns tt Demo.start.
Proof. by vm_compute. Qed.



Lemma amount_change_keeps_signature_witness :
  let t := {| amount := JS.NaN; payer := "satoshi"; payee := "bob" |} in
  let t' :=
    {| amount := JS.Infinity; payer := "satoshi"; payee := "bob" |} in
  let signature := rsa_sign (privateKey Demo.satoshi) (toString t) in
  rsa_verify "satoshi" (toString t) signature = true /\
  last (chain Demo.start) = Some Demo.genesis /\
  mine_loop 1 (random_nonce Demo.env1) 1 = Some 1 /\
  t <> t' /\
  toString t' = toString t /\
  rsa_verify "satoshi" (toString t') signature = true /\
  addBlock 1 Demo.env1 t' "satoshi" signature Demo.start
  = Returns tt
      {| chain := chain Demo.start
                    ++ [new_Block Demo.env1 (hash Demo.genesis) t'] |}.
Proof.
  split; [by vm_compute|]. split; [reflexivity|]. split; [by vm_compute|].
  apply (amount_change_keeps_signature Demo.satoshi "bob" 1 Demo.env1
           Demo.start Demo.genesis 1); by vm_compute.
Defined.

Lemma genesis_invariant_witness :
  reachable Demo.after1 /\
  (1 <= length (chain Demo.after1))%nat /\
  (exists g, chain Demo.after1 !! 0%nat = Some g /\ prevHash g = "") /\
  (forall fuel op c',
     run fuel op Demo.after1 = Some c' -> genesis_first c') /\
  (forall env, genesis_first (new_Chain env)).
Proof.
  split; [apply demo_reachable|].
  apply (genesis_invariant Demo.after1), demo_reachable.
Defined.


Lemma lastBlock_final_element_witness :
  (1 <= length (chain Demo.after1))%nat /\
  (exists front b,
     chain Demo.after1 = (front ++ [b])%list /\
     lastBlock Demo.after1 = Returns (Some b) Demo.after1) /\
  (forall c0, lastBlock c0 = Returns None c0 <-> chain c0 = []) /\
  (forall c0, exists r, lastBlock c0 = Returns r c0).
Proof.
  split; [cbn; lia|].
  apply (lastBlock_final_element Demo.after1). cbn; lia.
Defined.

(** The payer of [Demo.tx1] is satoshi; the key and the signature passed
    here are alice's. *)
Lemma addBlock_ignores_payer_witness :
  publicKey Demo.alice <> payer Demo.tx1 /\
  rsa_verify (publicKey Demo.alice) (toString Demo.tx1) Demo.sig1_alice
    = true /\
  last (chain Demo.start) = Some Demo.genesis /\
  mine_loop 1 (random_nonce Demo.env1) 1 = Some 1 /\
  exists b,
    addBlock 1 Demo.env1 Demo.tx1 (publicKey Demo.alice) Demo.sig1_alice
      Demo.start
    = Returns tt {| chain := chain Demo.start ++ [b] |} /\
    transaction b = Demo.tx1 /\ prevHash b = hash Demo.genesis.
Proof.
  split; [by vm_compute|]. split; [by vm_compute|].
  split; [reflexivity|]. split; [by vm_compute|].
  apply (addBlock_ignores_payer 1 Demo.env1 Demo.tx1
           (publicKey Demo.alice) Demo.sig1_alice Demo.start Demo.genesis
           1); by vm_compute.
Defined.

Lemma addBlock_keeps_drawn_nonce_witness :
  rsa_verify "satoshi" (toString Demo.tx1) Demo.sig1 = true /\
  addBlock 1 Demo.env1 Demo.tx1 "satoshi" Demo.sig1 Demo.start
    = Returns tt Demo.after1 /\
  (exists b,
     chain Demo.after1 = (chain Demo.start ++ [b])%list /\
     nonce b = random_nonce Demo.env1 /\
     exists solution,
       mine 1 (nonce b) Demo.start = Returns solution Demo.start) /\
  (forall (i : nat) b,
     chain Demo.start !! i = Some b -> chain Demo.after1 !! i = Some b) /\
  (forall fuel' n o,
     final (mine fuel' n Demo.start) = Some o -> o = Demo.start).
Proof.
  split; [by vm_compute|]. split; [by vm_compute|].
  apply (proj1 addBlock_keeps_drawn_nonce Symbolic.crypto 1%nat Demo.env1
           Demo.tx1 "satoshi" Demo.sig1 Demo.start Demo.after1);
    by vm_compute.
Defined.

End Instances.

(** The symbolic provider keeps the promise of [generateKeyPairSync]. *)
Lemma symbolic_verify_sign (pub priv data : string) :
  priv = Symbolic.private_of pub ->
  rsa_verify (Crypto := Symbolic.crypto) pub data
    (rsa_sign (Crypto := Symbolic.crypto) priv data) = true.
Proof.
  intros ->. cbn. unfold Symbolic.verify. by apply bool_decide_eq_true.
Qed.

Lemma of_string_inj (s s' : string) :
  Bytes.of_string s = Bytes.of_string s' -> s = s'.
Proof.
  revert s'. induction s as [|c s IH]; intros [|c' s']; cbn; try done.
  intros [= Hc Hs]. f_equal; [|by apply IH].
  apply N2Z.inj in Hc. apply (f_equal ascii_of_N) in Hc.
  by rewrite !ascii_N_embedding in Hc.
Qed.

Lemma append_inv_head (p s s' : string) :
  (p ++ s = p ++ s')%string -> s = s'.
Proof. induction p as [|c p IH]; cbn; [done|]. intros [= E]. auto. Qed.

(** Its signatures bind the signed text. *)
Lemma symbolic_verify_binds (pub priv data data' : string) :
  priv = Symbolic.private_of pub ->
  rsa_verify (Crypto := Symbolic.crypto) pub data'
    (rsa_sign (Crypto := Symbolic.crypto) priv data) = true ->
  data' = data.
Proof.
  intros ->.
  change (Symbolic.verify pub data'
            (Symbolic.sign (Symbolic.private_of pub) data) = true ->
          data' = data).
  unfold Symbolic.verify, Symbolic.sign.
  intros E%bool_decide_eq_true%of_string_inj.
  symmetry. by apply append_inv_head in E.
Qed.

(** The three transfers at the end of the source all pass the signature
    check: on a ledger with its genesis block none of them throws, and each
    stops only for its mining. *)
Example demo_transfers_pass (fuel : nat) (env : Env) (c : Chain) :
  (1 <= length (chain c))%nat ->
  forall w a p,
    In (w, a, p) [(Demo.satoshi, JS.Int 50, publicKey Demo.bob);
                  (Demo.bob, JS.Int 23, publicKey Demo.alice);
                  (Demo.alice, JS.Int 5, publicKey Demo.bob)] ->
    forall e c',
      sendMoney (provider := Symbolic.crypto) fuel env w a p c
      <> Throws e c'.
Proof.
  intros Hlen w a p Hin e c'.
  assert (privateKey w = Symbolic.private_of (publicKey w)) as Hk.
  { cbn in Hin. destruct Hin as [[= <- _ _]|[[= <- _ _]|[[= <- _ _]|[]]]];
      reflexivity. }
  rewrite (sendMoney_valid _ symbolic_verify_sign _ _ _ _ _ _ Hk).
  destruct (last (chain c)) eqn:Hl.
  - by destruct (mine_loop _ _ _).
  - apply last_None in Hl. rewrite Hl in Hlen. cbn in Hlen. lia.
Qed.

(** Had the 50 of the first transfer been changed to 5000 after signing,
    the signature would be refused. *)
Example demo_changed_amount :
  rsa_verify (Crypto := Symbolic.crypto) "satoshi"
    (toString {| amount := JS.Int 5000; payer := "satoshi";
                 payee := "bob" |})
    Demo.sig1 = false.
Proof.
  apply (changed_transfer_rejected _ symbolic_verify_binds Demo.satoshi
           Demo.tx1 _ 50 5000); done.
Qed.

(** ** Further properties of the classes *)

Section Further.
Context {provider : Crypto}.
Local Open Scope string_scope.

Implicit Types (c : Chain) (b : Block) (t : Transaction) (env : Env).










(** X7: the chain is append-only.  After any sequence of calls that all
    come back, the old chain is still there, block for block, at the
    front of the new one, followed by at most one new block per call. *)
Theorem calls_only_append (ops : list (nat * call)) c c' :
  run_all ops c = Some c' ->
  exists added,
    chain c' = (chain c ++ added)%list /\
    (length added <= length ops)%nat /\
    (forall (i : nat) b, chain c !! i = Some b -> chain c' !! i = Some b).
Proof.
  revert c. induction ops as [|[fuel op] ops IH]; intros c; cbn.
  - intros [= <-]. exists []. rewrite app_nil_r. split; [done|].
    split; [cbn; lia|done].
  - destruct (run fuel op c) as [c1|] eqn:H1; [|done].
    intros (added & Hc' & Hlen & Hkeep)%IH.
    apply run_extends in H1 as [->|(tip & env & t & _ & ->)].
    + exists added. split; [done|]. split; [lia|done].
    + cbn in *. exists (new_Block env (hash tip) t :: added).
      rewrite Hc', <- app_assoc. split; [done|]. split; [cbn; lia|].
      intros i b Hb. by apply lookup_app_l_Some.
Qed.


Lemma hex_digit_is_hex (d : Z) : is_hex_char (Bytes.hex_digit d) = true.
Proof.
  destruct d as [|p|p]; [reflexivity| |reflexivity].
  do 4 (try (destruct p as [p|p|]; try reflexivity)).
Qed.

Lemma hex_all_hex (bs : list Z) : all_hex (Bytes.hex bs) = true.
Proof.
  induction bs as [|x bs IH]; [done|].
  cbn [Bytes.hex Bytes.hex_byte all_hex].
  by rewrite !hex_digit_is_hex, IH.
Qed.

(** X9: in every reachable ledger the genesis block is the only one with
    an empty [prevHash]: the [prevHash] of every later block is a SHA-256
    digest in text, 64 lowercase hexadecimal digits. *)
Theorem prevHash_is_digest c (i : nat) b :
  reachable c ->
  chain c !! i = Some b ->
  (i = 0%nat -> prevHash b = "") /\
  ((0 < i)%nat ->
   String.length (prevHash b) = 64%nat /\ all_hex (prevHash b) = true).
Proof.
  intros Hc Hb. split.
  - intros ->. apply reachable_genesis_first in Hc as [_ (g & Hg & Hp)].
    congruence.
  - intros Hi. destruct i as [|j]; [lia|].
    destruct (chain c !! j) as [b0|] eqn:Hb0.
    + rewrite (reachable_linked c Hc j b0 b Hb0 Hb). unfold hash.
      split; [apply sha256_hex_length|apply hex_all_hex].
    + apply lookup_ge_None in Hb0. apply lookup_lt_Some in Hb. lia.
Qed.


(** X11: nothing marks a transaction as used.  The same transaction with
    the same key and signature is admitted a second time: two calls in a
    row append two blocks that carry it, the second chained to the
    first. *)
Theorem addBlock_admits_replay (fuel : nat) env env' t (pk : string)
    (sig : Buffer) c tip (s s' : Z) :
  rsa_verify pk (toString t) sig = true ->
  last (chain c) = Some tip ->
  mine_loop fuel (random_nonce env) 1 = Some s ->
  mine_loop fuel (random_nonce env') 1 = Some s' ->
  bind (addBlock fuel env t pk sig)
       (fun _ => addBlock fuel env' t pk sig) c
  = Returns tt
      {| chain := chain c ++
           [new_Block env (hash tip) t;
            new_Block env' (hash (new_Block env (hash tip) t)) t] |}.
Proof.
  intros Hv Htip Hs Hs'. unfold bind.
  rewrite (addBlock_valid _ _ _ _ _ _ Hv), Htip, Hs.
  rewrite (addBlock_valid _ _ _ _ _ _ Hv). cbn [chain].
  rewrite last_snoc, Hs'. by rewrite <- app_assoc.
Qed.

(** X12: what was appended is what [lastBlock] gives next: after a call
    of [addBlock] that admits a transaction, [lastBlock] returns the new
    block, which carries that transaction and names the hash of the
    former last block. *)
Theorem lastBlock_after_addBlock (fuel : nat) env t (pk : string)
    (sig : Buffer) c tip (s : Z) :
  rsa_verify pk (toString t) sig = true ->
  last (chain c) = Some tip ->
  mine_loop fuel (random_nonce env) 1 = Some s ->
  exists b,
    bind (addBlock fuel env t pk sig) (fun _ => lastBlock) c
    = Returns (Some b) {| chain := chain c ++ [b] |} /\
    transaction b = t /\ prevHash b = hash tip.
Proof.
  intros Hv Htip Hs. unfold bind.
  rewrite (addBlock_valid _ _ _ _ _ _ Hv), Htip, Hs.
  rewrite lastBlock_last. cbn [chain]. rewrite last_snoc. by eexists.
Qed.

Lemma sendMoney_own_keys (fuel : nat) env (w : Wallet) (a : JS.number)
    (p : string) c tip (s : Z) :
  (forall data,
     rsa_verify (publicKey w) data (rsa_sign (privateKey w) data) = true) ->
  last (chain c) = Some tip ->
  mine_loop fuel (random_nonce env) 1 = Some s ->
  sendMoney fuel env w a p c
  = Returns tt
      {| chain := chain c ++
           [new_Block env (hash tip)
              {| amount := a; payer := publicKey w; payee := p |}] |}.
Proof.
  intros Hw Htip Hs.
  rewrite (sendMoney_valid
             (fun pub priv =>
                forall data, rsa_verify pub data (rsa_sign priv data) = true)
             (fun pub priv data H => H data) _ _ _ _ _ _ Hw).
  by rewrite Htip, Hs.
Qed.

(** X1: a wallet whose two keys belong together sends what it says: on a
    ledger with a last block, and with fuel for the mining,
    [sendMoney(amount, payeePublicKey)] appends exactly one block, whose
    transaction has that amount, that payee and the wallet's own public
    key as payer, and which is chained to the former last block. *)
Theorem sendMoney_appends_own_transfer (fuel : nat) env (w : Wallet)
    (a : JS.number) (p : string) c tip (s : Z) :
  (forall data,
     rsa_verify (publicKey w) data (rsa_sign (privateKey w) data) = true) ->
  last (chain c) = Some tip ->
  mine_loop fuel (random_nonce env) 1 = Some s ->
  exists b,
    sendMoney fuel env w a p c = Returns tt {| chain := chain c ++ [b] |} /\
    amount (transaction b) = a /\
    payer (transaction b) = publicKey w /\
    payee (transaction b) = p /\
    prevHash b = hash tip /\
    ts b = date_now env /\ nonce b = random_nonce env.
Proof.
  intros Hw Htip Hs.
  rewrite (sendMoney_own_keys _ _ _ _ _ _ _ _ Hw Htip Hs). by eexists.
Qed.

(** X13: the script at the end of the source.  When the three generated
    key pairs are sound and the mining for each of the three drawn nonces
    ends within the fuel, the script returns and [Chain.instance] holds
    four blocks: the genesis block and then, in this order, 50 from
    satoshi to bob, 23 from bob to alice and 5 from alice to bob, each
    block naming the hash of the one before. *)
Theorem example_usage_ledger (fuel : nat) (k1 k2 k3 : string * string)
    (e0 e1 e2 e3 : Env) (s1 s2 s3 : Z) :
  (forall data, rsa_verify (fst k1) data (rsa_sign (snd k1) data) = true) ->
  (forall data, rsa_verify (fst k2) data (rsa_sign (snd k2) data) = true) ->
  (forall data, rsa_verify (fst k3) data (rsa_sign (snd k3) data) = true) ->
  mine_loop fuel (random_nonce e1) 1 = Some s1 ->
  mine_loop fuel (random_nonce e2) 1 = Some s2 ->
  mine_loop fuel (random_nonce e3) 1 = Some s3 ->
  exists g b1 b2 b3,
    chain (new_Chain e0) = [g] /\
    example_usage fuel k1 k2 k3 e1 e2 e3 (new_Chain e0)
    = Returns tt {| chain := [g; b1; b2; b3] |} /\
    transaction b1
    = {| amount := JS.Int 50; payer := fst k1; payee := fst k2 |} /\
    transaction b2
    = {| amount := JS.Int 23; payer := fst k2; payee := fst k3 |} /\
    transaction b3
    = {| amount := JS.Int 5; payer := fst k3; payee := fst k2 |} /\
    prevHash b1 = hash g /\ prevHash b2 = hash b1 /\
    prevHash b3 = hash b2.
Proof.
  intros H1 H2 H3 Hs1 Hs2 Hs3.
  unfold example_usage, bind.
  erewrite (sendMoney_own_keys fuel e1 (new_Wallet k1));
    [|exact H1|reflexivity|exact Hs1].
  erewrite (sendMoney_own_keys fuel e2 (new_Wallet k2));
    [|exact H2|reflexivity|exact Hs2].
  erewrite (sendMoney_own_keys fuel e3 (new_Wallet k3));
    [|exact H3|reflexivity|exact Hs3].
  do 4 eexists. split; [reflexivity|]. split; [reflexivity|]. done.
Qed.


End Further.

(** ** The further properties at the example usage *)

Section FurtherInstances.
Local Open Scope string_scope.
#[local] Existing Instance Symbolic.crypto.

Lemma demo_keys_sound (name data : string) :
  rsa_verify name data (rsa_sign (Symbolic.private_of name) data) = true.
Proof. by apply symbolic_verify_sign. Defined.

Lemma sendMoney_appends_own_transfer_witness :
  (forall data,
     rsa_verify (publicKey Demo.bob) data
       (rsa_sign (privateKey Demo.bob) data) = true) /\
  last (chain Demo.after1) = Some Demo.block1 /\
  mine_loop 1 (random_nonce Demo2.env2) 1 = Some 1 /\
  exists b,
    sendMoney 1 Demo2.env2 Demo.bob (JS.Int 23) "alice" Demo.after1
    = Returns tt {| chain := chain Demo.after1 ++ [b] |} /\
    amount (transaction b) = JS.Int 23 /\
    payer (transaction b) = publicKey Demo.bob /\
    payee (transaction b) = "alice" /\
    prevHash b = hash Demo.block1 /\
    ts b = date_now Demo2.env2 /\ nonce b = random_nonce Demo2.env2.
Proof.
  split; [apply demo_keys_sound|]. split; [reflexivity|].
  split; [by vm_compute|].
  apply (sendMoney_appends_own_transfer 1 Demo2.env2 Demo.bob (JS.Int 23)
           "alice" Demo.after1 Demo.block1 1);
    [apply demo_keys_sound|reflexivity|by vm_compute].
Defined.



(** The signature is satoshi's, so the call on the empty ledger throws. *)
Example addBlock_empty_chain_throws :
  addBlock 0 Demo.env1 Demo.tx1 "satoshi" Demo.sig1 Demo2.empty
  = Throws TypeError Demo2.empty.
Proof. by vm_compute. Qed.

(** A transfer, a forged submission and a look at the last block. *)
Lemma calls_only_append_witness :
  let ops :=
    [(1%nat, call_sendMoney Demo.env1 Demo.satoshi (JS.Int 50) "bob");
     (1%nat, call_addBlock Demo2.env2 Demo.tx1 "satoshi" [1; 2; 3]);
     (0%nat, call_lastBlock)] in
  run_all ops Demo.start = Some Demo.after1 /\
  exists added,
    chain Demo.after1 = (chain Demo.start ++ added)%list /\
    (length added <= length ops)%nat /\
    (forall (i : nat) b,
       chain Demo.start !! i = Some b -> chain Demo.after1 !! i = Some b).
Proof.
  cbv zeta. split; [by vm_compute|].
  apply (calls_only_append
           [(1%nat, call_sendMoney Demo.env1 Demo.satoshi (JS.Int 50) "bob");
            (1%nat, call_addBlock Demo2.env2 Demo.tx1 "satoshi" [1; 2; 3]);
            (0%nat, call_lastBlock)] Demo.start Demo.after1).
  by vm_compute.
Defined.


Lemma prevHash_is_digest_witness :
  reachable Demo.after1 /\
  chain Demo.after1 !! 1%nat = Some Demo.block1 /\
  (1%nat = 0%nat -> prevHash Demo.block1 = "") /\
  ((0 < 1)%nat ->
   String.length (prevHash Demo.block1) = 64%nat /\
   all_hex (prevHash Demo.block1) = true).
Proof.
  split; [apply demo_reachable|]. split; [reflexivity|].
  apply (prevHash_is_digest Demo.after1 1 Demo.block1);
    [apply demo_reachable|reflexivity].
Defined.


Lemma addBlock_admits_replay_witness :
  rsa_verify "satoshi" (toString Demo.tx1) Demo.sig1 = true /\
  last (chain Demo.start) = Some Demo.genesis /\
  mine_loop 1 (random_nonce Demo.env1) 1 = Some 1 /\
  mine_loop 1 (random_nonce Demo2.env2) 1 = Some 1 /\
  bind (addBlock 1 Demo.env1 Demo.tx1 "satoshi" Demo.sig1)
       (fun _ => addBlock 1 Demo2.env2 Demo.tx1 "satoshi" Demo.sig1)
       Demo.start
  = Returns tt
      {| chain := chain Demo.start ++
           [new_Block Demo.env1 (hash Demo.genesis) Demo.tx1;
            new_Block Demo2.env2
              (hash (new_Block Demo.env1 (hash Demo.genesis) Demo.tx1))
              Demo.tx1] |}.
Proof.
  split; [by vm_compute|]. split; [reflexivity|].
  split; [by vm_compute|]. split; [by vm_compute|].
  apply (addBlock_admits_replay 1 Demo.env1 Demo2.env2 Demo.tx1 "satoshi"
           Demo.sig1 Demo.start Demo.genesis 1 1);
    [by vm_compute|reflexivity|by vm_compute|by vm_compute].
Defined.

Lemma lastBlock_after_addBlock_witness :
  rsa_verify "satoshi" (toString Demo.tx1) Demo.sig1 = true /\
  last (chain Demo.start) = Some Demo.genesis /\
  mine_loop 1 (random_nonce Demo.env1) 1 = Some 1 /\
  exists b,
    bind (addBlock 1 Demo.env1 Demo.tx1 "satoshi" Demo.sig1)
         (fun _ => lastBlock) Demo.start
    = Returns (Some b) {| chain := chain Demo.start ++ [b] |} /\
    transaction b = Demo.tx1 /\ prevHash b = hash Demo.genesis.
Proof.
  split; [by vm_compute|]. split; [reflexivity|].
  split; [by vm_compute|].
  apply (lastBlock_after_addBlock 1 Demo.env1 Demo.tx1 "satoshi"
           Demo.sig1 Demo.start Demo.genesis 1);
    [by vm_compute|reflexivity|by vm_compute].
Defined.

Lemma example_usage_ledger_witness :
  let k1 := Demo2.keys "satoshi" in
  let k2 := Demo2.keys "bob" in
  let k3 := Demo2.keys "alice" in
  (forall data, rsa_verify (fst k1) data (rsa_sign (snd k1) data) = true) /\
  (forall data, rsa_verify (fst k2) data (rsa_sign (snd k2) data) = true) /\
  (forall data, rsa_verify (fst k3) data (rsa_sign (snd k3) data) = true) /\
  mine_loop 1 (random_nonce Demo.env1) 1 = Some 1 /\
  mine_loop 1 (random_nonce Demo2.env2) 1 = Some 1 /\
  mine_loop 1 (random_nonce Demo2.env3) 1 = Some 1 /\
  exists g b1 b2 b3,
    chain (new_Chain Demo.env0) = [g] /\
    example_usage 1 k1 k2 k3 Demo.env1 Demo2.env2 Demo2.env3
      (new_Chain Demo.env0)
    = Returns tt {| chain := [g; b1; b2; b3] |} /\
    transaction b1
    = {| amount := JS.Int 50; payer := fst k1; payee := fst k2 |} /\
    transaction b2
    = {| amount := JS.Int 23; payer := fst k2; payee := fst k3 |} /\
    transaction b3
    = {| amount := JS.Int 5; payer := fst k3; payee := fst k2 |} /\
    prevHash b1 = hash g /\ prevHash b2 = hash b1 /\
    prevHash b3 = hash b2.
Proof.
  cbv zeta.
  split; [apply demo_keys_sound|]. split; [apply demo_keys_sound|].
  split; [apply demo_keys_sound|].
  split; [by vm_compute|]. split; [by vm_compute|].
  split; [by vm_compute|].
  apply (example_usage_ledger 1 (Demo2.keys "satoshi") (Demo2.keys "bob")
           (Demo2.keys "alice") Demo.env0 Demo.env1 Demo2.env2 Demo2.env3
           1 1 1);
    first [apply demo_keys_sound|by vm_compute].
Defined.


End FurtherInstances.
